(** * SocraticEngine: knowledge graph, session reducer, expression sandbox
      and curve sampler

    A shallow embedding of the TypeScript sources
    - [lib/knowledge-graph]   (the knowledge-graph store) and [types],
    - [components/Chat]       (the session reducer and [sendMessage]),
    - [app/api/socratic]      (the oracle route handler [POST]),
    - the graph component     ([createEvaluator], [generatePath]),
    followed by the properties the design document states about them.

    Conventions of the embedding.
    - The counters and scores of the knowledge graph are integers in the
      data model; they are [Z] here.  [Date.now()] and [uuidv4()] are inputs.
    - [ErrorType] is a union of string literals, erased at run time: values
      are strings, and [ERROR_TYPES] lists the seven literals.
    - [Record<string, TopicState>] is a finite map [gmap string TopicState].
    - Numbers of the graph component are IEEE-754 binary64: [PrimFloat.float].
    - Strings are byte strings; [\s] and [trim] are modelled on ASCII input.
    - What the JavaScript engine does with a compiled expression
      ([new Function]) and how it prints a number ([toFixed]) are
      parameters. *)

From Stdlib Require Import ZArith PrimFloat Uint63 Ascii String.
From stdpp Require Import base decidable option list gmap strings pretty.

Open Scope string_scope.
Open Scope list_scope.
Open Scope Z_scope.

(* ================================================================== *)
(** * Part I. Definitions                                              *)
(* ================================================================== *)

(** ** JavaScript array helpers *)

(** [arr.slice(-n)]: the last [n] elements (all of them when there are fewer). *)
Definition slice_last {A} (n : nat) (l : list A) : list A :=
  drop (length l - n) l.

(** [Array.from(new Set(arr))]: duplicates removed, first occurrences kept,
    in insertion order. *)
Fixpoint array_from_set (l : list string) : list string :=
  match l with
  | [] => []
  | x :: r => x :: filter (λ n, n ≠ x) (array_from_set r)
  end.

(** ** Types ([src/types]) *)

Definition ErrorType := string.

Definition ERROR_TYPES : list ErrorType :=
  [ "Conceptual Gap"; "Arithmetic Error"; "Sign Error"; "Wrong Theorem";
    "Notation Confusion"; "Correct Idea, Wrong Execution"; "None" ].

Record TopicState := mkTopicState {
  mastered : bool;
  confidenceScore : Z;
  attempts : Z;
  lastErrors : list ErrorType;
}.

Record ErrorRecord := mkErrorRecord {
  er_type : ErrorType;
  er_topic : string;
  er_timestamp : Z;
}.

Record SessionStats := mkSessionStats {
  totalAttempts : Z;
  consecutiveFailures : Z;
  microDrillsCompleted : Z;
  currentTopic : string;
  attemptOnCurrentProblem : Z;
}.

Record KnowledgeGraph := mkKnowledgeGraph {
  topics : gmap string TopicState;
  weakNodes : list string;
  errorHistory : list ErrorRecord;
  sessionStats : SessionStats;
}.

(** [mastered?] and [weak_nodes?] are optional fields. *)
Record KnowledgeUpdate := mkKnowledgeUpdate {
  ku_topic : string;
  confidence_delta : Z;
  ku_mastered : option bool;
  weak_nodes : option (list string);
}.

(** ** The knowledge-graph store ([src/lib/knowledge-graph.ts]) *)

Module KG.

Definition createInitialKnowledgeGraph : KnowledgeGraph :=
  {| topics := ∅;
     weakNodes := [];
     errorHistory := [];
     sessionStats :=
       {| totalAttempts := 0; consecutiveFailures := 0;
          microDrillsCompleted := 0; currentTopic := "";
          attemptOnCurrentProblem := 0 |} |}.

(** The default entry of a topic that is not yet in the map. *)
Definition default_topic : TopicState :=
  {| mastered := false; confidenceScore := 50; attempts := 0; lastErrors := [] |}.

(** [Math.min(100, Math.max(0, s))]. *)
Definition clamp_score (s : Z) : Z := Z.min 100 (Z.max 0 s).

(** [applyKnowledgeUpdate(kg, update, errorType, isCorrect)]; [now] is the
    value [Date.now()] returns when the error record is built. *)
Definition applyKnowledgeUpdate (kg : KnowledgeGraph) (update : KnowledgeUpdate)
    (errorType : ErrorType) (isCorrect : bool) (now : Z) : KnowledgeGraph :=
  let topic := ku_topic update in
  (* const existing = next.topics[topic] ?? {...} *)
  let existing := default default_topic (topics kg !! topic) in
  let newScore := clamp_score (confidenceScore existing + confidence_delta update) in
  let recentErrors :=
    if bool_decide (errorType ≠ "None")
    then slice_last 4 (lastErrors existing) ++ [errorType]
    else lastErrors existing in
  let entry :=
    {| mastered := default ((85 <=? newScore) && isCorrect) (ku_mastered update);
       confidenceScore := newScore;
       attempts := attempts existing + 1;
       lastErrors := recentErrors |} in
  let topics1 := <[topic := entry]> (topics kg) in
  (* Update weak nodes *)
  let weak1 :=
    match weak_nodes update with
    | Some wn =>
        if (0 <? length wn)%nat then array_from_set (weakNodes kg ++ wn)
        else weakNodes kg
    | None => weakNodes kg
    end in
  (* Remove from weak nodes if mastered *)
  let weak2 :=
    if mastered entry then filter (λ n, n ≠ topic) weak1 else weak1 in
  (* Add to error history *)
  let history1 :=
    if bool_decide (errorType ≠ "None")
    then slice_last 49 (errorHistory kg)
           ++ [ {| er_type := errorType; er_topic := topic; er_timestamp := now |} ]
    else errorHistory kg in
  (* Update session stats *)
  let stats := sessionStats kg in
  let stats1 :=
    {| totalAttempts := totalAttempts stats + 1;
       consecutiveFailures :=
         if isCorrect then 0 else consecutiveFailures stats + 1;
       microDrillsCompleted := microDrillsCompleted stats;
       currentTopic := topic;
       attemptOnCurrentProblem :=
         if isCorrect then 0 else attemptOnCurrentProblem stats + 1 |} in
  {| topics := topics1; weakNodes := weak2;
     errorHistory := history1; sessionStats := stats1 |}.

Definition recordMicroDrillCompleted (kg : KnowledgeGraph) : KnowledgeGraph :=
  {| topics := topics kg; weakNodes := weakNodes kg;
     errorHistory := errorHistory kg;
     sessionStats :=
       let s := sessionStats kg in
       {| totalAttempts := totalAttempts s;
          consecutiveFailures := consecutiveFailures s;
          microDrillsCompleted := microDrillsCompleted s + 1;
          currentTopic := currentTopic s;
          attemptOnCurrentProblem := attemptOnCurrentProblem s |} |}.

(** The frequency table is a JavaScript object filled in iteration order:
    an association list whose keys appear in order of first insertion.
    [freq_bump t freq] is [freq[t] = (freq[t] ?? 0) + 1]. *)
Fixpoint freq_bump (t : ErrorType) (freq : list (ErrorType * Z))
  : list (ErrorType * Z) :=
  match freq with
  | [] => [(t, 0 + 1)]
  | (k, c) :: rest =>
      if bool_decide (k = t) then (k, c + 1) :: rest
      else (k, c) :: freq_bump t rest
  end.

Definition getErrorFrequency (kg : KnowledgeGraph) : list (ErrorType * Z) :=
  let window := slice_last 30 (errorHistory kg) in
  foldl (λ freq r, freq_bump (er_type r) freq) [] window.

(** [Object.values(freq).some((count) => count >= 3)]. *)
Definition shouldTriggerMicroDrill (kg : KnowledgeGraph) : bool :=
  let freq := getErrorFrequency kg in
  existsb (λ count, 3 <=? count) (map snd freq).

Definition getTopicConfidence (kg : KnowledgeGraph) (topic : string) : Z :=
  default 50 (confidenceScore <$> topics kg !! topic).

Definition resetAttemptCounter (kg : KnowledgeGraph) : KnowledgeGraph :=
  {| topics := topics kg; weakNodes := weakNodes kg;
     errorHistory := errorHistory kg;
     sessionStats :=
       let s := sessionStats kg in
       {| totalAttempts := totalAttempts s;
          consecutiveFailures := 0;
          microDrillsCompleted := microDrillsCompleted s;
          currentTopic := currentTopic s;
          attemptOnCurrentProblem := 0 |} |}.

End KG.

(** ** Engine I/O and conversation types ([src/types]) *)

Inductive VisualizationType := VLimit | VDerivative | VIntegral | VNone.
Inductive StepStatus := SNeutral | SStudent | SCorrect | SError.

Record Step := mkStep {
  step_expression : string;
  step_status : StepStatus;
  step_annotation : option string;
}.

Record FunctionConfig := mkFunctionConfig {
  fc_expression : string;
  limit_approach : option float;
  limit_value : option float;
  derivative_point : option float;
  integral_a : option float;
  integral_b : option float;
  x_min : option float;
  x_max : option float;
  y_min : option float;
  y_max : option float;
}.

Record WhiteboardInstruction := mkWhiteboardInstruction {
  wb_text : string;
  visualization_type : VisualizationType;
  math_expression : option string;
  function_config : option FunctionConfig;
  wb_steps : option (list Step);
  highlight_step : option Z;
}.

Record SocraticResponse := mkSocraticResponse {
  tutor_response : string;
  error_type : ErrorType;
  micro_drill : bool;
  whiteboard_instruction : WhiteboardInstruction;
  knowledge_update : KnowledgeUpdate;
}.

Inductive Role := RUser | RAssistant.

Record ConversationMessage := mkConversationMessage {
  cm_role : Role;
  cm_content : string;
}.

Record Message := mkMessage {
  msg_id : string;
  msg_role : Role;
  msg_content : string;
  msg_errorType : option ErrorType;
  msg_timestamp : Z;
  msg_isMicroDrill : option bool;
}.

(** ** The session reducer ([SessionProvider]) *)

Module Session.

Record SessionState := mkSessionState {
  messages : list Message;
  conversationHistory : list ConversationMessage;
  knowledgeGraph : KnowledgeGraph;
  whiteboardInstruction : WhiteboardInstruction;
  isLoading : bool;
  error : option string;
  microDrillActive : bool;
  microDrillTopic : option string;
  streamingText : string;
  isStreaming : bool;
}.

Definition INITIAL_WHITEBOARD : WhiteboardInstruction :=
  {| wb_text := "Ask me any math question to get started.";
     visualization_type := VNone;
     math_expression := None; function_config := None;
     wb_steps := None; highlight_step := None |}.

Definition createInitialState : SessionState :=
  {| messages := [];
     conversationHistory := [];
     knowledgeGraph := KG.createInitialKnowledgeGraph;
     whiteboardInstruction := INITIAL_WHITEBOARD;
     isLoading := false;
     error := None;
     microDrillActive := false;
     microDrillTopic := None;
     streamingText := "";
     isStreaming := false |}.

Inductive Action :=
  | INIT_KG (payload : KnowledgeGraph)
  | SEND_MESSAGE (userMessage : Message) (history : list ConversationMessage)
  | SET_LOADING (payload : bool)
  | SET_STREAMING (payload : bool)
  | STREAM_CHUNK (payload : string)
  | ENGINE_RESPONSE (payload : SocraticResponse)
  | SET_ERROR (payload : option string)
  | DISMISS_MICRO_DRILL
  | RESET_SESSION.

(** What the reducer reads from its environment while it handles one
    action: the identifier [uuidv4()] returns and the two readings of
    [Date.now()] (one inside [applyKnowledgeUpdate], one for the message). *)
Record Env := mkEnv {
  env_uuid : string;
  env_now_record : Z;
  env_now_message : Z;
}.

Definition reducer (env : Env) (state : SessionState) (action : Action)
  : SessionState :=
  match action with
  | INIT_KG payload =>
      {| messages := messages state;
         conversationHistory := conversationHistory state;
         knowledgeGraph := payload;
         whiteboardInstruction := whiteboardInstruction state;
         isLoading := isLoading state;
         error := error state;
         microDrillActive := microDrillActive state;
         microDrillTopic := microDrillTopic state;
         streamingText := streamingText state;
         isStreaming := isStreaming state |}
  | SEND_MESSAGE userMessage history =>
      {| messages := messages state ++ [userMessage];
         conversationHistory := history;
         knowledgeGraph := knowledgeGraph state;
         whiteboardInstruction := whiteboardInstruction state;
         isLoading := isLoading state;
         error := None;
         microDrillActive := microDrillActive state;
         microDrillTopic := microDrillTopic state;
         streamingText := streamingText state;
         isStreaming := isStreaming state |}
  | SET_LOADING payload =>
      {| messages := messages state;
         conversationHistory := conversationHistory state;
         knowledgeGraph := knowledgeGraph state;
         whiteboardInstruction := whiteboardInstruction state;
         isLoading := payload;
         error := error state;
         microDrillActive := microDrillActive state;
         microDrillTopic := microDrillTopic state;
         streamingText := streamingText state;
         isStreaming := isStreaming state |}
  | SET_STREAMING payload =>
      {| messages := messages state;
         conversationHistory := conversationHistory state;
         knowledgeGraph := knowledgeGraph state;
         whiteboardInstruction := whiteboardInstruction state;
         isLoading := isLoading state;
         error := error state;
         microDrillActive := microDrillActive state;
         microDrillTopic := microDrillTopic state;
         streamingText := if payload then "" else streamingText state;
         isStreaming := payload |}
  | STREAM_CHUNK payload =>
      {| messages := messages state;
         conversationHistory := conversationHistory state;
         knowledgeGraph := knowledgeGraph state;
         whiteboardInstruction := whiteboardInstruction state;
         isLoading := isLoading state;
         error := error state;
         microDrillActive := microDrillActive state;
         microDrillTopic := microDrillTopic state;
         streamingText := (streamingText state ++ payload)%string;
         isStreaming := isStreaming state |}
  | ENGINE_RESPONSE payload =>
      let isCorrect := bool_decide (error_type payload = "None") in
      let updatedKg :=
        KG.applyKnowledgeUpdate (knowledgeGraph state) (knowledge_update payload)
          (error_type payload) isCorrect (env_now_record env) in
      let assistantMessage :=
        {| msg_id := env_uuid env;
           msg_role := RAssistant;
           msg_content := tutor_response payload;
           msg_errorType := Some (error_type payload);
           msg_timestamp := env_now_message env;
           msg_isMicroDrill := Some (micro_drill payload) |} in
      let newHistory :=
        conversationHistory state
          ++ [ {| cm_role := RAssistant; cm_content := tutor_response payload |} ] in
      let finalKg :=
        if micro_drill payload then KG.recordMicroDrillCompleted updatedKg
        else updatedKg in
      {| messages := messages state ++ [assistantMessage];
         conversationHistory := newHistory;
         knowledgeGraph := finalKg;
         whiteboardInstruction := whiteboard_instruction payload;
         isLoading := false;
         error := error state;
         microDrillActive := micro_drill payload;
         microDrillTopic :=
           if micro_drill payload then Some (ku_topic (knowledge_update payload))
           else microDrillTopic state;
         streamingText := "";
         isStreaming := false |}
  | SET_ERROR payload =>
      {| messages := messages state;
         conversationHistory := conversationHistory state;
         knowledgeGraph := knowledgeGraph state;
         whiteboardInstruction := whiteboardInstruction state;
         isLoading := false;
         error := payload;
         microDrillActive := microDrillActive state;
         microDrillTopic := microDrillTopic state;
         streamingText := streamingText state;
         isStreaming := false |}
  | DISMISS_MICRO_DRILL =>
      let resetKg := KG.resetAttemptCounter (knowledgeGraph state) in
      {| messages := messages state;
         conversationHistory := conversationHistory state;
         knowledgeGraph := resetKg;
         whiteboardInstruction := whiteboardInstruction state;
         isLoading := isLoading state;
         error := error state;
         microDrillActive := false;
         microDrillTopic := None;
         streamingText := streamingText state;
         isStreaming := isStreaming state |}
  | RESET_SESSION =>
      {| messages := messages createInitialState;
         conversationHistory := conversationHistory createInitialState;
         knowledgeGraph := KG.createInitialKnowledgeGraph;
         whiteboardInstruction := whiteboardInstruction createInitialState;
         isLoading := isLoading createInitialState;
         error := error createInitialState;
         microDrillActive := microDrillActive createInitialState;
         microDrillTopic := microDrillTopic createInitialState;
         streamingText := streamingText createInitialState;
         isStreaming := isStreaming createInitialState |}
  end.

End Session.

(** ** The oracle route handler ([POST /api/socratic]) *)

(** [s.trim()] is the empty string: every character is white space. *)
Definition js_space (a : ascii) : bool :=
  let n := nat_of_ascii a in
  ((9 <=? n) && (n <=? 13))%nat || (n =? 32)%nat.

Definition trim_is_empty (s : string) : bool :=
  forallb js_space (list_ascii_of_string s).

(** A thrown JavaScript value, as the [catch] clauses classify it. *)
Inductive Thrown :=
  | ThrownAPIError (status : Z) (message : string)  (* Anthropic.APIError *)
  | ThrownError (message : string)                  (* any other Error *)
  | ThrownOther.                                    (* not an Error *)

Record EngineRequest := mkEngineRequest {
  req_message : string;
  req_knowledgeGraph : KnowledgeGraph;
  req_conversationHistory : list ConversationMessage;
}.

Module Route.

Definition DEFAULT_WHITEBOARD : WhiteboardInstruction :=
  {| wb_text := "Waiting for student input...";
     visualization_type := VNone;
     math_expression := None; function_config := None;
     wb_steps := None; highlight_step := None |}.

(** [toolBlock.input as SocraticResponse]: a cast, nothing is checked.  The
    one field the handler looks at, [whiteboard_instruction], may be absent. *)
Record ToolInput := mkToolInput {
  ti_tutor_response : string;
  ti_error_type : string;
  ti_micro_drill : bool;
  ti_whiteboard_instruction : option WhiteboardInstruction;
  ti_knowledge_update : KnowledgeUpdate;
}.

Inductive ContentBlock :=
  | TextBlock (text : string)
  | ToolUseBlock (name : string) (input : ToolInput).

(** The outcome of [client.messages.create(...)]. *)
Inductive OracleResult :=
  | OracleThrows (e : Thrown)
  | OracleMessage (content : list ContentBlock).

(** [NextResponse.json(body, { status })]: the handler answers with status
    200 and the record, or with status 400 or 500 and [{ error }]. *)
Inductive ErrorStatus := Status400 | Status500.

Definition status_code (s : ErrorStatus) : Z :=
  match s with Status400 => 400 | Status500 => 500 end.

Inductive RouteResponse :=
  | RespRecord (body : SocraticResponse)
  | RespError (status : ErrorStatus) (error : string).

Definition is_tool_use (b : ContentBlock) : bool :=
  match b with ToolUseBlock _ _ => true | TextBlock _ => false end.

Definition catch_message (e : Thrown) : string :=
  match e with
  | ThrownAPIError status message =>
      ("Anthropic API error " ++ pretty status ++ ": " ++ message)%string
  | ThrownError message => message
  | ThrownOther => "Unknown error"
  end.

Definition POST (body : EngineRequest) (oracle : OracleResult) : RouteResponse :=
  if trim_is_empty (req_message body) then RespError Status400 "Empty message"
  else
    match oracle with
    | OracleThrows e => RespError Status500 (catch_message e)
    | OracleMessage content =>
        match List.find is_tool_use content with
        | Some (ToolUseBlock name input) =>
            if bool_decide (name ≠ "socratic_response")
            then RespError Status500
                   (catch_message
                      (ThrownError "SocraticEngine did not invoke the required tool"))
            else
              RespRecord
                {| tutor_response := ti_tutor_response input;
                   error_type := ti_error_type input;
                   micro_drill := ti_micro_drill input;
                   whiteboard_instruction :=
                     default DEFAULT_WHITEBOARD (ti_whiteboard_instruction input);
                   knowledge_update := ti_knowledge_update input |}
        | _ =>
            RespError Status500
              (catch_message
                 (ThrownError "SocraticEngine did not invoke the required tool"))
        end
    end.

End Route.

(** ** One tutoring turn on the client ([sendMessage]) *)

Module Turn.
Import Session.

(** What [await fetch(...)] and the reading of the body give.  A body with
    an OK status that parses but is not a record of the response type is
    outside this typed model. *)
Inductive FetchOutcome :=
  | FetchThrows (e : Thrown)
      (* the request itself fails *)
  | NotOk (status : Z) (body : option (option string))
      (* [!res.ok]; the body does not parse ([None]) or is an object
         whose [error] field is present or not *)
  | OkUnparsable (e : Thrown)
      (* [res.ok], but [res.json()] rejects *)
  | OkRecord (r : SocraticResponse).

Definition fetch_of_route (r : Route.RouteResponse) : FetchOutcome :=
  match r with
  | Route.RespRecord body => OkRecord body
  | Route.RespError status err => NotOk (Route.status_code status) (Some (Some err))
  end.

(** [err instanceof Error ? err.message : 'Something went wrong']. *)
Definition client_message (e : Thrown) : string :=
  match e with
  | ThrownAPIError _ message => message
  | ThrownError message => message
  | ThrownOther => "Something went wrong"
  end.

Record TurnEnv := mkTurnEnv {
  user_uuid : string;
  user_now : Z;
  reducer_env : Env;
}.

(** The last action [sendMessage] dispatches, after the [try] block. *)
Definition final_action (outcome : FetchOutcome) : Action :=
  match outcome with
  | FetchThrows e => SET_ERROR (Some (client_message e))
  | NotOk status body =>
      let err := default (Some "Request failed") body in
      SET_ERROR (Some (default ("HTTP " ++ pretty status)%string err))
  | OkUnparsable e => SET_ERROR (Some (client_message e))
  | OkRecord r => ENGINE_RESPONSE r
  end.

Definition sendMessage (env : TurnEnv) (text : string) (outcome : FetchOutcome)
    (state : SessionState) : SessionState :=
  if trim_is_empty text || isLoading state then state
  else
    let userMessage :=
      {| msg_id := user_uuid env; msg_role := RUser; msg_content := text;
         msg_errorType := None; msg_timestamp := user_now env;
         msg_isMicroDrill := None |} in
    let updatedHistory :=
      conversationHistory state ++ [ {| cm_role := RUser; cm_content := text |} ] in
    foldl (reducer (reducer_env env)) state
      [ SEND_MESSAGE userMessage updatedHistory;
        SET_LOADING true;
        SET_STREAMING true;
        final_action outcome ].

(** The request [sendMessage] posts. *)
Definition requestBody (text : string) (state : SessionState) : EngineRequest :=
  {| req_message := text;
     req_knowledgeGraph := knowledgeGraph state;
     req_conversationHistory :=
       conversationHistory state ++ [ {| cm_role := RUser; cm_content := text |} ] |}.

(** A whole turn against the route handler. *)
Definition turn (env : TurnEnv) (text : string) (oracle : Route.OracleResult)
    (state : SessionState) : SessionState :=
  sendMessage env text
    (fetch_of_route (Route.POST (requestBody text state) oracle)) state.

(** The outcomes that are failures of the turn: all but a parsed record. *)
Definition failed (outcome : FetchOutcome) : Prop :=
  match outcome with OkRecord _ => False | _ => True end.

(** The oracle results for which the route handler reports a failure: the
    call throws, or the first tool-use block is missing or is not a call of
    [socratic_response]. *)
Definition oracle_fails (oracle : Route.OracleResult) : Prop :=
  match oracle with
  | Route.OracleThrows _ => True
  | Route.OracleMessage content =>
      match List.find Route.is_tool_use content with
      | Some (Route.ToolUseBlock name _) => name ≠ "socratic_response"
      | _ => True
      end
  end.

End Turn.

(** ** The expression sandbox and the curve sampler (graph component) *)

Module Graph.

(** *** The sanitiser of [createEvaluator] *)

(** [\d], [\s] (on ASCII) and [\w]. *)
Definition re_digit (a : ascii) : bool :=
  let n := nat_of_ascii a in ((48 <=? n) && (n <=? 57))%nat.

Definition re_space (a : ascii) : bool := js_space a.

Definition re_word (a : ascii) : bool :=
  let n := nat_of_ascii a in
  (((65 <=? n) && (n <=? 90)) || ((97 <=? n) && (n <=? 122))
   || re_digit a || (n =? 95))%nat.

(** The character class of the regular expression [safe]:
    [[x\d\s\+\-\*\/\.\(\)Math\.,sincotanlogpowexpabsfloorceiltanh]].
    Inside the brackets every letter stands for itself. *)
Definition safe_class_literals : list ascii :=
  list_ascii_of_string "x+-*/.()Math.,sincotanlogpowexpabsfloorceiltanh".

Definition in_safe_class (a : ascii) : bool :=
  re_digit a || re_space a || existsb (Ascii.eqb a) safe_class_literals.

(** [safe.test(s)] for [/^[...]+$/]: one character or more, all in the class. *)
Definition safe_test (s : list ascii) : bool :=
  match s with
  | [] => false
  | _ :: _ => forallb in_safe_class s
  end.

(** Does [/Math\.\w+/] match at the head of [l]? *)
Definition math_member_here (l : list ascii) : bool :=
  match l with
  | "M" :: "a" :: "t" :: "h" :: "." :: c :: _ => re_word c
  | _ => false
  end%char.

(** [s.replace(/Math\.\w+/g, 'Math.x')], as a left-to-right scan.  Within a
    match the scan first passes the four characters [ath.] that follow the
    [M], then the greedy run of [\w]. *)
Inductive scan_mode :=
  | Scanning
  | InMatch (literals_left : nat).

Fixpoint replace_math_from (mode : scan_mode) (l : list ascii) : list ascii :=
  match l with
  | [] => []
  | a :: r =>
      let scan :=
        if math_member_here l
        then list_ascii_of_string "Math.x" ++ replace_math_from (InMatch 4) r
        else a :: replace_math_from Scanning r in
      match mode with
      | InMatch (S n) => replace_math_from (InMatch n) r
      | InMatch O => if re_word a then replace_math_from (InMatch 0) r else scan
      | Scanning => scan
      end
  end.

Definition replace_math (s : string) : list ascii :=
  replace_math_from Scanning (list_ascii_of_string s).

(** The gate of [createEvaluator]: [safe.test(expression.replace(...))]. *)
Definition sanitizer_accepts (expression : string) : bool :=
  safe_test (replace_math expression).

(** *** Numbers *)

Definition NaN : float := PrimFloat.nan.

(** [isFinite(v)] on a number. *)
Definition isFinite (v : float) : bool :=
  negb (PrimFloat.is_nan v || PrimFloat.is_infinity v).

(** The loop counter as a number (exact below 2^53). *)
Definition num_of_nat (n : nat) : float :=
  PrimFloat.of_uint63 (Uint63.of_Z (Z.of_nat n)).

(** What a JavaScript function returns: a number, or a value of another
    type, kept with the number it coerces to where a number is expected. *)
Inductive JsValue :=
  | JNumber (v : float)
  | JOther (coerced : float).

Definition to_number (v : JsValue) : float :=
  match v with JNumber n => n | JOther n => n end.

Section Evaluator.

(** [new Function('x', `"use strict"; const {sin,...} = Math; return
    ${expression};`)] is the JavaScript engine's work: [None] when the
    constructor throws; otherwise the function, which applied to a number
    returns a value or throws ([None]). *)
Variable new_Function : string → option (float → option JsValue).

(** The evaluator that [createEvaluator] returns around [fn]. *)
Definition guarded (fn : float → option JsValue) (x : float) : float :=
  match fn x with
  | Some v => if isFinite (to_number v) then to_number v else NaN
  | None => NaN
  end.

Definition createEvaluator (expression : string) : option (float → float) :=
  if bool_decide (expression = "") then None
  else if negb (sanitizer_accepts expression) then None
  else
    match new_Function expression with
    | None => None
    | Some fn =>
        match fn 1%float with
        | Some (JNumber _) => Some (guarded fn)
        | Some (JOther _) => None
        | None => None
        end
    end.

End Evaluator.

(** *** [generatePath] *)

Inductive DrawCmd :=
  | MoveTo (px py : float)
  | LineTo (px py : float).

Section Path.

Variable fn : float → float.
Variables xMin xMax yMin yMax width height : float.
(** The loop bound; the component calls [generatePath] with the default 300. *)
Variable steps : nat.

Definition sample_x (i : nat) : float :=
  (xMin + (num_of_nat i / num_of_nat steps) * (xMax - xMin))%float.

(** [!isFinite(y) || y < yMin - 1 || y > yMax + 1]. *)
Definition pen_lifts (y : float) : bool :=
  negb (isFinite y) || (y <? yMin - 1)%float || (yMax + 1 <? y)%float.

Definition canvas_x (x : float) : float :=
  (((x - xMin) / (xMax - xMin)) * width)%float.

Definition canvas_y (y : float) : float :=
  (height - ((y - yMin) / (yMax - yMin)) * height)%float.

(** One iteration of the loop on the pair ([penDown], [points]). *)
Definition path_step (st : bool * list DrawCmd) (i : nat) : bool * list DrawCmd :=
  let '(penDown, points) := st in
  let x := sample_x i in
  let y := fn x in
  if pen_lifts y then (false, points)
  else
    let px := canvas_x x in
    let py := canvas_y y in
    if negb penDown then (true, points ++ [MoveTo px py])
    else (true, points ++ [LineTo px py]).

(** The array [points] when the loop [for (i = 0; i <= steps; i++)] ends. *)
Definition generatePath_points : list DrawCmd :=
  snd (foldl path_step (false, []) (seq 0 (S steps))).

(** [px.toFixed(2)] is the engine's number formatting. *)
Variable toFixed2 : float → string.

Definition render (c : DrawCmd) : string :=
  match c with
  | MoveTo px py => ("M " ++ toFixed2 px ++ " " ++ toFixed2 py)%string
  | LineTo px py => ("L " ++ toFixed2 px ++ " " ++ toFixed2 py)%string
  end.

Definition generatePath : string :=
  String.concat " " (map render generatePath_points).

End Path.

End Graph.

(** *** The sampler as the design document words it

    Partition [[xMin,xMax]] into [steps] equal steps; a sample whose value is
    not finite, or more than one unit outside [[yMin,yMax]], gives no command
    and lifts the pen; another sample gives a line-to, or a move-to when the
    pen is up, which is the case at the first sample and after a sample that
    lifted the pen. *)

Module PathSpec.
Import Graph.

Section Spec.

Variable fn : float → float.
Variables xMin xMax yMin yMax width height : float.
Variable steps : nat.

Definition drawn (i : nat) : bool :=
  negb (pen_lifts yMin yMax (fn (sample_x xMin xMax steps i))).

Definition pen_up_before (i : nat) : bool :=
  match i with
  | O => true
  | S j => negb (drawn j)
  end.

(** The canvas point of sample [i]: an affine image of the data point, with
    the vertical axis pointing down. *)
Definition point_x (i : nat) : float :=
  canvas_x xMin xMax width (sample_x xMin xMax steps i).

Definition point_y (i : nat) : float :=
  canvas_y yMin yMax height (fn (sample_x xMin xMax steps i)).

Definition move_at (i : nat) : DrawCmd := MoveTo (point_x i) (point_y i).
Definition line_at (i : nat) : DrawCmd := LineTo (point_x i) (point_y i).

Definition command_at (i : nat) : DrawCmd :=
  if pen_up_before i then move_at i else line_at i.

Definition path_commands : list DrawCmd :=
  map command_at (List.filter drawn (seq 0 (S steps))).

End Spec.

(** The number of subpaths of a path: its move-to commands. *)
Definition is_move (c : DrawCmd) : bool :=
  match c with MoveTo _ _ => true | LineTo _ _ => false end.

Definition segments (path : list DrawCmd) : nat :=
  length (List.filter is_move path).

End PathSpec.

(** *** The allow-list as the design document words it

    Digits, [x], arithmetic operators, parentheses, comma, period, and the
    names of the numeric library: the names below are the ones that
    [createEvaluator] binds from [Math], with [Math] itself and [x]. *)

Module SandboxSpec.
Import Graph.

Definition allowed_names : list string :=
  [ "x"; "Math"; "sin"; "cos"; "tan"; "log"; "exp"; "abs"; "pow"; "sqrt";
    "PI"; "E"; "floor"; "ceil"; "tanh"; "sinh"; "cosh"; "asin"; "acos";
    "atan" ].

(** The maximal runs of letters, digits and underscores of a text. *)
Fixpoint words_from (current : string) (l : list ascii) : list string :=
  match l with
  | [] => if bool_decide (current = "") then [] else [current]
  | a :: r =>
      if re_word a then words_from (current ++ String a "")%string r
      else if bool_decide (current = "") then words_from "" r
      else current :: words_from "" r
  end.

Definition starts_with_digit (w : string) : bool :=
  match w with
  | String a _ => re_digit a
  | EmptyString => false
  end.

(** The names of an expression: its words that are not numerals. *)
Definition names (expression : string) : list string :=
  List.filter (λ w, negb (starts_with_digit w))
    (words_from "" (list_ascii_of_string expression)).

Definition punctuation : list ascii := list_ascii_of_string "+-*/(),.".

(** Every character is a word character, white space or allowed
    punctuation, and every name is an allowed one. *)
Definition allow_listed (expression : string) : bool :=
  forallb (λ a, re_word a || re_space a || existsb (Ascii.eqb a) punctuation)
    (list_ascii_of_string expression)
  && forallb (λ n, bool_decide (n ∈ allowed_names)) (names expression).

End SandboxSpec.

(** ** [applyKnowledgeUpdate] on the object heap

    The JavaScript function works on objects that are shared by reference:
    the spread [{ ...kg.topics }] copies the references to the topic
    entries, and an entry's [lastErrors] array is reused when no error is
    recorded.  This second model runs the same statements on an explicit
    heap, so that what the function writes, and where, can be stated. *)

Module Heap.

(** Addresses are positive numbers; the heap is a finite map from addresses
    to objects. *)
Abbreviation loc := positive.

Inductive obj :=
  | ObjGraph (o_topics o_weakNodes o_errorHistory o_sessionStats : loc)
  | ObjTopics (entries : gmap string loc)
  | ObjTopic (o_mastered : bool) (o_confidenceScore o_attempts : Z)
             (o_lastErrors : loc)
  | ObjStrings (items : list string)
  | ObjHistory (records : list loc)
  | ObjRecord (r : ErrorRecord)
  | ObjStats (s : SessionStats).

Abbreviation heap := (gmap loc obj).

(** Computations on the heap; [None] is a fault (a dangling reference or an
    object of the wrong shape), which well-typed callers never meet. *)
Definition HeapM (A : Type) : Type := heap → option (A * heap).

Definition ret {A} (a : A) : HeapM A := λ h, Some (a, h).

Definition bind {A B} (m : HeapM A) (k : A → HeapM B) : HeapM B :=
  λ h, match m h with
       | Some (a, h') => k a h'
       | None => None
       end.

Notation "'do' x <- m ; k" := (bind m (λ x, k))
  (at level 10, x binder, m at level 100, k at level 200).

Definition fault {A} : HeapM A := λ _, None.

(** [{ ... }] and [[ ... ]]: a new object at an unused address. *)
Definition alloc (o : obj) : HeapM loc :=
  λ h, let l := fresh (dom h) in Some (l, <[l := o]> h).

Definition load (l : loc) : HeapM obj :=
  λ h, match h !! l with Some o => Some (o, h) | None => None end.

(** An assignment to a property of the object at [l]. *)
Definition store (l : loc) (o : obj) : HeapM unit :=
  λ h, match h !! l with Some _ => Some (tt, <[l := o]> h) | None => None end.

Definition load_graph (l : loc) : HeapM (loc * loc * loc * loc) :=
  do o <- load l;
  match o with ObjGraph t w e s => ret (t, w, e, s) | _ => fault end.

Definition load_topics (l : loc) : HeapM (gmap string loc) :=
  do o <- load l; match o with ObjTopics m => ret m | _ => fault end.

Definition load_topic (l : loc) : HeapM (bool * Z * Z * loc) :=
  do o <- load l;
  match o with ObjTopic m c a le => ret (m, c, a, le) | _ => fault end.

Definition load_strings (l : loc) : HeapM (list string) :=
  do o <- load l; match o with ObjStrings xs => ret xs | _ => fault end.

Definition load_history (l : loc) : HeapM (list loc) :=
  do o <- load l; match o with ObjHistory ls => ret ls | _ => fault end.

Definition load_stats (l : loc) : HeapM SessionStats :=
  do o <- load l; match o with ObjStats s => ret s | _ => fault end.

(** [const next = { ...kg, topics: { ...kg.topics }, weakNodes:
    [...kg.weakNodes], errorHistory: [...kg.errorHistory], sessionStats:
    { ...kg.sessionStats } }]: four copies, one level deep, and the object
    that refers to them. *)
Definition clone_graph (kg : loc) : HeapM (loc * loc * loc * loc * loc) :=
  do '(t0, w0, e0, s0) <- load_graph kg;
  do m0 <- load_topics t0;
  do t1 <- alloc (ObjTopics m0);
  do ws0 <- load_strings w0;
  do w1 <- alloc (ObjStrings ws0);
  do rs0 <- load_history e0;
  do e1 <- alloc (ObjHistory rs0);
  do st0 <- load_stats s0;
  do s1 <- alloc (ObjStats st0);
  do next <- alloc (ObjGraph t1 w1 e1 s1);
  ret (next, t1, w1, e1, s1).

(** [const existing = next.topics[topic] ?? { mastered: false, ... }]. *)
Definition existing_topic (t1 : loc) (topic : string) : HeapM loc :=
  do m <- load_topics t1;
  match m !! topic with
  | Some l => ret l
  | None =>
      do le <- alloc (ObjStrings []);
      alloc (ObjTopic false 50 0 le)
  end.

(** [applyKnowledgeUpdate], statement by statement.  [kg] is the reference
    the caller passes; the result is the reference [next]. *)
Definition applyKnowledgeUpdate (kg : loc) (update : KnowledgeUpdate)
    (errorType : ErrorType) (isCorrect : bool) (now : Z) : HeapM loc :=
  let topic := ku_topic update in
  do '(next, t1, w1, e1, s1) <- clone_graph kg;
  do existing <- existing_topic t1 topic;
  do '(_, score, att, le0) <- load_topic existing;
  let newScore := KG.clamp_score (score + confidence_delta update) in
  (* const recentErrors = errorType !== 'None' ? [...] : existing.lastErrors *)
  do recentErrors <-
    (if bool_decide (errorType ≠ "None")
     then do errs <- load_strings le0;
          alloc (ObjStrings (slice_last 4 errs ++ [errorType]))
     else ret le0);
  (* next.topics[topic] = { ... } *)
  let nowMastered :=
    default ((85 <=? newScore) && isCorrect) (ku_mastered update) in
  do entry <- alloc (ObjTopic nowMastered newScore (att + 1) recentErrors);
  do m1 <- load_topics t1;
  do _ <- store t1 (ObjTopics (<[topic := entry]> m1));
  (* if (weak_nodes && weak_nodes.length > 0) next.weakNodes = merged *)
  do w2 <-
    match weak_nodes update with
    | Some wn =>
        if (0 <? length wn)%nat
        then do ws <- load_strings w1;
             do merged <- alloc (ObjStrings (array_from_set (ws ++ wn)));
             do _ <- store next (ObjGraph t1 merged e1 s1);
             ret merged
        else ret w1
    | None => ret w1
    end;
  (* if (next.topics[topic].mastered) next.weakNodes = next.weakNodes.filter(...) *)
  do w3 <-
    (if nowMastered
     then do ws <- load_strings w2;
          do filtered <- alloc (ObjStrings (filter (λ n, n ≠ topic) ws));
          do _ <- store next (ObjGraph t1 filtered e1 s1);
          ret filtered
     else ret w2);
  (* if (errorType !== 'None') next.errorHistory = [...slice(-49), record] *)
  do e2 <-
    (if bool_decide (errorType ≠ "None")
     then do record <-
            alloc (ObjRecord {| er_type := errorType; er_topic := topic;
                                er_timestamp := now |});
          do rs <- load_history e1;
          do hist <- alloc (ObjHistory (slice_last 49 rs ++ [record]));
          do _ <- store next (ObjGraph t1 w3 hist s1);
          ret hist
     else ret e1);
  (* next.sessionStats = { ...next.sessionStats, ... } *)
  do st <- load_stats s1;
  do s2 <-
    alloc (ObjStats
      {| totalAttempts := totalAttempts st + 1;
         consecutiveFailures :=
           if isCorrect then 0 else consecutiveFailures st + 1;
         microDrillsCompleted := microDrillsCompleted st;
         currentTopic := topic;
         attemptOnCurrentProblem :=
           if isCorrect then 0 else attemptOnCurrentProblem st + 1 |});
  do _ <- store next (ObjGraph t1 w3 e2 s2);
  ret next.

(** [wp m h Q]: the computation [m] runs from [h] without a fault, and its
    result and final heap satisfy [Q]. *)
Definition wp {A} (m : HeapM A) (h : heap) (Q : A → heap → Prop) : Prop :=
  ∃ a h', m h = Some (a, h') ∧ Q a h'.

(** The heap holds the value [g] at address [l]. *)
Definition holds_strings (h : heap) (l : loc) (xs : list string) : Prop :=
  h !! l = Some (ObjStrings xs).

Definition holds_topic (h : heap) (l : loc) (ts : TopicState) : Prop :=
  ∃ le, h !! l = Some (ObjTopic (mastered ts) (confidenceScore ts) (attempts ts) le)
        ∧ holds_strings h le (lastErrors ts).

Definition holds_topics (h : heap) (l : loc) (M : gmap string TopicState) : Prop :=
  ∃ m, h !! l = Some (ObjTopics m)
       ∧ ∀ k, option_Forall2 (holds_topic h) (m !! k) (M !! k).

Definition holds_record (h : heap) (l : loc) (r : ErrorRecord) : Prop :=
  h !! l = Some (ObjRecord r).

Definition holds_history (h : heap) (l : loc) (rs : list ErrorRecord) : Prop :=
  ∃ ls, h !! l = Some (ObjHistory ls) ∧ Forall2 (holds_record h) ls rs.

Definition holds_graph (h : heap) (l : loc) (g : KnowledgeGraph) : Prop :=
  ∃ t w e s, h !! l = Some (ObjGraph t w e s)
             ∧ holds_topics h t (topics g)
             ∧ holds_strings h w (weakNodes g)
             ∧ holds_history h e (errorHistory g)
             ∧ h !! s = Some (ObjStats (sessionStats g)).

End Heap.

(** ** Derived notions used in the statements *)

(** [freq[k] ?? 0]. *)
Fixpoint freq_get (k : ErrorType) (freq : list (ErrorType * Z)) : Z :=
  match freq with
  | [] => 0
  | (k', c) :: rest => if bool_decide (k' = k) then c else freq_get k rest
  end.

(** The knowledge graphs a session goes through: the empty graph, changed
    by the three functions of the store that return a graph. *)
Inductive reachable : KnowledgeGraph → Prop :=
  | reach_initial : reachable KG.createInitialKnowledgeGraph
  | reach_update kg update errorType isCorrect now :
      reachable kg →
      reachable (KG.applyKnowledgeUpdate kg update errorType isCorrect now)
  | reach_drill kg :
      reachable kg → reachable (KG.recordMicroDrillCompleted kg)
  | reach_reset kg :
      reachable kg → reachable (KG.resetAttemptCounter kg).

(** The number of records of kind [k] in a stretch of the history. *)
Definition count_kind (k : ErrorType) (l : list ErrorRecord) : nat :=
  length (filter (λ r, er_type r = k) l).

(** The error record that an update with [errorType] other than ["None"]
    appends. *)
Definition new_record (update : KnowledgeUpdate) (errorType : ErrorType)
    (now : Z) : ErrorRecord :=
  {| er_type := errorType; er_topic := ku_topic update; er_timestamp := now |}.

(** ** Sample data *)

Module Sample.

(** A graph whose only topic is ["limits"], with the given flag and score,
    and which lists ["limits"] among its weak nodes. *)
Definition graph_with (m : bool) (score : Z) : KnowledgeGraph :=
  {| topics :=
       {[ "limits" := {| mastered := m; confidenceScore := score;
                         attempts := 3; lastErrors := [] |} ]};
     weakNodes := ["limits"; "algebra"];
     errorHistory := [];
     sessionStats := sessionStats KG.createInitialKnowledgeGraph |}.

(** An update of ["limits"] that carries neither optional field. *)
Definition plain_update (delta : Z) : KnowledgeUpdate :=
  {| ku_topic := "limits"; confidence_delta := delta;
     ku_mastered := None; weak_nodes := None |}.

(** A graph whose history is the given list of error kinds. *)
Definition graph_with_history (kinds : list ErrorType) : KnowledgeGraph :=
  {| topics := ∅; weakNodes := [];
     errorHistory :=
       map (λ k, {| er_type := k; er_topic := "limits"; er_timestamp := 0 |}) kinds;
     sessionStats := sessionStats KG.createInitialKnowledgeGraph |}.

(** An oracle record about ["limits"] with the given error kind and drill
    flag. *)
Definition response (kind : ErrorType) (drill : bool) : SocraticResponse :=
  {| tutor_response := "What happens as x gets close to two?";
     error_type := kind;
     micro_drill := drill;
     whiteboard_instruction := Route.DEFAULT_WHITEBOARD;
     knowledge_update := plain_update (-10) |}.

Definition tool_input (kind : string) : Route.ToolInput :=
  {| Route.ti_tutor_response := "What happens as x gets close to two?";
     Route.ti_error_type := kind;
     Route.ti_micro_drill := false;
     Route.ti_whiteboard_instruction := None;
     Route.ti_knowledge_update := plain_update (-10) |}.

Definition env : Session.Env :=
  {| Session.env_uuid := "a1"; Session.env_now_record := 10;
     Session.env_now_message := 11 |}.

Definition turn_env : Turn.TurnEnv :=
  {| Turn.user_uuid := "u1"; Turn.user_now := 9; Turn.reducer_env := env |}.

(** The session after a first oracle record that signals a drill. *)
Definition drill_state : Session.SessionState :=
  Session.reducer env Session.createInitialState
    (Session.ENGINE_RESPONSE (response "Sign Error" true)).

(** What a browser's engine makes of two expressions that name things
    outside the numeric library: [fetch(x)*0] starts a request and
    multiplies the promise by 0, which is [NaN]; [self.length] is the number
    of frames of the window. *)
Definition browser_engine (expression : string)
  : option (float → option Graph.JsValue) :=
  if bool_decide (expression = "fetch(x)*0")
  then Some (λ _, Some (Graph.JNumber Graph.NaN))
  else if bool_decide (expression = "self.length")
  then Some (λ _, Some (Graph.JNumber 0%float))
  else None.

(** A heap that holds [graph_with false 80] at address 1. *)
Definition heap80 : Heap.heap :=
  list_to_map
    [ (1%positive, Heap.ObjGraph 2 3 4 5);
      (2%positive, Heap.ObjTopics {[ "limits" := 6%positive ]});
      (3%positive, Heap.ObjStrings ["limits"; "algebra"]);
      (4%positive, Heap.ObjHistory []);
      (5%positive, Heap.ObjStats (sessionStats KG.createInitialKnowledgeGraph));
      (6%positive, Heap.ObjTopic false 80 3 7);
      (7%positive, Heap.ObjStrings []) ].

(** The function the engine builds for the expression [(x*x-4)/(x-2)], and
    an engine that knows this one expression. *)
Definition removable : string := "(x*x-4)/(x-2)".

Definition removable_fn (x : float) : option Graph.JsValue :=
  Some (Graph.JNumber ((x * x - 4) / (x - 2))%float).

Definition removable_engine (expression : string)
  : option (float → option Graph.JsValue) :=
  if bool_decide (expression = removable) then Some removable_fn else None.

(** The path of that expression over [[0,4] x [-1,7]] on the 480 x 320
    canvas of the component, with the default 300 steps. *)
Definition removable_path : list Graph.DrawCmd :=
  Graph.generatePath_points (Graph.guarded removable_fn)
    0%float 4%float (-1)%float 7%float 480%float 320%float 300.

End Sample.

(** ** More of the knowledge-graph store *)

Module Queries.

Section Entries.

(** [Object.entries(freq)]: the own entries of the table, in the key order
    of the engine. *)
Variable object_entries : list (ErrorType * Z) → list (ErrorType * Z).

(** The body of the loop of [getDominantError] on the pair ([max],
    [dominant]). *)
Definition dominant_step (st : Z * option ErrorType) (entry : ErrorType * Z)
  : Z * option ErrorType :=
  let '(max, dominant) := st in
  let '(type, count) := entry in
  if max <? count then (count, Some type) else (max, dominant).

Definition getDominantError (kg : KnowledgeGraph) : option ErrorType :=
  let freq := KG.getErrorFrequency kg in
  let '(max, dominant) :=
    foldl dominant_step (0, None) (object_entries freq) in
  if 3 <=? max then dominant else None.

End Entries.

(** The sum of the [attempts] fields of all topics. *)
Definition topic_attempts (kg : KnowledgeGraph) : Z :=
  map_fold (λ _ ts acc, attempts ts + acc) 0 (topics kg).

End Queries.

(** ** The prompt builder ([src/lib/prompts.ts]) *)

Module Prompts.

(** [freq[t] = (freq[t] || 0) + 1]: a count of 0 is taken for a missing one. *)
Fixpoint freq_bump (t : ErrorType) (freq : list (ErrorType * Z))
  : list (ErrorType * Z) :=
  match freq with
  | [] => [(t, 0 + 1)]
  | (k, c) :: rest =>
      if bool_decide (k = t)
      then (k, (if bool_decide (c = 0) then 0 else c) + 1) :: rest
      else (k, c) :: freq_bump t rest
  end.

(** The prompt builder's own [getErrorFrequency]: the last 20 records,
    those of kind ["None"] skipped. *)
Definition getErrorFrequency (kg : KnowledgeGraph) : list (ErrorType * Z) :=
  let recentErrors := slice_last 20 (errorHistory kg) in
  foldl (λ freq record,
           if bool_decide (er_type record ≠ "None")
           then freq_bump (er_type record) freq
           else freq)
        [] recentErrors.

(** Of [buildSystemPrompt]: [const attemptCount =
    kg.sessionStats.attemptOnCurrentProblem; const shouldReveal =
    attemptCount >= 3]. *)
Definition attemptCount (kg : KnowledgeGraph) : Z :=
  attemptOnCurrentProblem (sessionStats kg).

Definition shouldReveal (kg : KnowledgeGraph) : bool :=
  3 <=? attemptCount kg.

(** [`[Attempt ${attemptNum}] ${studentInput}`]. *)
Definition buildUserMessage (studentInput : string) (attemptNum : Z) : string :=
  ("[Attempt " ++ pretty attemptNum ++ "] " ++ studentInput)%string.

End Prompts.

(** ** What the route handler sends to the oracle *)

Module Oracle.

Definition attemptNum (body : EngineRequest) : Z :=
  attemptOnCurrentProblem (sessionStats (req_knowledgeGraph body)) + 1.

Definition userContent (body : EngineRequest) : string :=
  Prompts.buildUserMessage (req_message body) (attemptNum body).

(** The [messages] array of [POST]: the last 20 turns of the history, then
    the user turn built from the message. *)
Definition messages (body : EngineRequest) : list ConversationMessage :=
  map (λ m, {| cm_role := cm_role m; cm_content := cm_content m |})
      (slice_last 20 (req_conversationHistory body))
  ++ [ {| cm_role := RUser; cm_content := userContent body |} ].

End Oracle.

(** ** The input box ([ChatInput]) *)

Module ChatInput.

(** [s.trim()], on ASCII white space. *)
Fixpoint drop_leading_space (l : list ascii) : list ascii :=
  match l with
  | [] => []
  | a :: r => if js_space a then drop_leading_space r else l
  end.

Definition trim (s : string) : string :=
  string_of_list_ascii
    (rev (drop_leading_space
            (rev (drop_leading_space (list_ascii_of_string s))))).

(** [handleSubmit]: the text handed to [onSubmit], if any, and the new
    content of the box. *)
Definition handleSubmit (value : string) (disabled : bool)
  : option string * string :=
  let text := trim value in
  if bool_decide (text = "") || disabled then (None, value)
  else (Some text, "").

(** [<ChatInput onSubmit={sendMessage} disabled={state.isLoading} />]: a
    submission of the box in the chat panel. *)
Definition submit (env : Turn.TurnEnv) (value : string)
    (outcome : Turn.FetchOutcome) (state : Session.SessionState)
  : Session.SessionState :=
  match fst (handleSubmit value (Session.isLoading state)) with
  | Some text => Turn.sendMessage env text outcome state
  | None => state
  end.

End ChatInput.

(** ** The integral view ([IntegralViz]) *)

Module Integral.
Import Graph.

Section Area.

Variable fn : float → float.
Variables a b yMin yMax : float.
Variables toSvgX toSvgY : float → float.

(** [const zero = toSvgY(Math.max(yMin, 0))]; [Math.max] gives [NaN] when an
    argument is [NaN], and otherwise the larger one, [+0] being larger than
    [-0]. *)
Definition math_max (u v : float) : float :=
  if PrimFloat.is_nan u || PrimFloat.is_nan v then NaN
  else if (u <? v)%float then v
  else if (v <? u)%float then u
  else if PrimFloat.get_sign u then v else u.

Definition zero : float := toSvgY (math_max yMin 0).

(** The smooth shaded area, drawn when [n === 0]: the commands of
    [pathPts].  The last element of the array is the text [L x y Z]: a
    line-to followed by a close-path. *)
Inductive AreaCmd :=
  | AMove (x y : float)
  | ALine (x y : float)
  | AClose.

Definition area_x (i : nat) : float :=
  (a + (num_of_nat i / num_of_nat 100) * (b - a))%float.

(** [isFinite(y) && y >= yMin && y <= yMax]. *)
Definition inside (y : float) : bool :=
  isFinite y && (yMin <=? y)%float && (y <=? yMax)%float.

Definition area_step (pathPts : list AreaCmd) (i : nat) : list AreaCmd :=
  let x := area_x i in
  let y := fn x in
  if inside y then pathPts ++ [ALine (toSvgX x) (toSvgY y)] else pathPts.

Definition smooth_area : list AreaCmd :=
  foldl area_step [AMove (toSvgX a) zero] (seq 0 (S 100))
  ++ [ALine (toSvgX b) zero; AClose].

(** The Riemann rectangles, drawn for [n] other than 0. *)
Record Rect := mkRect {
  rect_key : nat;
  rect_x : float;
  rect_y : float;
  rect_width : float;
  rect_height : float;
}.

Variable n : nat.

Definition dx : float := ((b - a) / num_of_nat n)%float.

Definition rect_step (rects : list Rect) (i : nat) : list Rect :=
  let x := (a + num_of_nat i * dx)%float in
  let midX := (x + dx / 2)%float in
  let y := fn midX in
  if negb (isFinite y) then rects
  else
    let svgX := toSvgX x in
    let svgY := toSvgY y in
    let svgW := (toSvgX (x + dx) - svgX)%float in
    let height := PrimFloat.abs (zero - svgY) in
    rects
      ++ [ {| rect_key := i;
              rect_x := svgX;
              rect_y := if (0 <=? y)%float then svgY else zero;
              rect_width := PrimFloat.abs svgW;
              rect_height := height |} ].

Definition rectangles : list Rect := foldl rect_step [] (seq 0 n).

End Area.

(** The timer of the view: [steps], the index [i], the displayed [n], and
    whether the interval is still set. *)
Definition steps : list nat := [4; 8; 16; 32; 64; 0]%nat.

Record Timer := mkTimer {
  timer_i : nat;
  timer_n : nat;
  timer_set : bool;
}.

(** [useState(4)], [let i = 0], [setInterval]. *)
Definition timer_start : Timer :=
  {| timer_i := 0; timer_n := 4; timer_set := true |}.

(** One firing of the interval callback. *)
Definition tick (t : Timer) : Timer :=
  if timer_set t then
    let i := S (timer_i t) in
    if (length steps <=? i)%nat
    then {| timer_i := i; timer_n := timer_n t; timer_set := false |}
    else {| timer_i := i; timer_n := nth i steps 0%nat; timer_set := true |}
  else t.

End Integral.

(** ** Runs of the reducer *)

Module Trace.
Import Session.

(** A sequence of actions, each with what the reducer reads from its
    environment while handling it. *)
Definition run (state : SessionState) (events : list (Env * Action))
  : SessionState :=
  foldl (λ s ev, reducer (fst ev) s (snd ev)) state events.

Definition is_response (a : Action) : bool :=
  match a with ENGINE_RESPONSE _ => true | _ => false end.

Definition is_drill (a : Action) : bool :=
  match a with ENGINE_RESPONSE r => micro_drill r | _ => false end.

(** The actions that replace the knowledge graph by another one. *)
Definition replaces_graph (a : Action) : bool :=
  match a with INIT_KG _ | RESET_SESSION => true | _ => false end.

Definition count (p : Action → bool) (events : list (Env * Action)) : Z :=
  Z.of_nat (length (List.filter (λ ev, p (snd ev)) events)).

End Trace.

(** ** More sample data *)

Module Sample2.

(** Three wrong answers on ["limits"], then nothing else. *)
Definition three_wrong : KnowledgeGraph :=
  foldl (λ kg now,
           KG.applyKnowledgeUpdate kg (Sample.plain_update (-10))
             "Sign Error" false now)
        KG.createInitialKnowledgeGraph [1; 2; 3].

Definition weak_update : KnowledgeUpdate :=
  {| ku_topic := "limits"; confidence_delta := 10;
     ku_mastered := Some true;
     weak_nodes := Some ["algebra"; "limits"; "fractions"; "algebra"] |}.

End Sample2.

(* ================================================================== *)
(** * Part II. Properties                                              *)
(* ================================================================== *)

(** ** Array helpers *)

Lemma slice_last_length {A} (n : nat) (l : list A) :
  length (slice_last n l) = (length l `min` n)%nat.
Proof. unfold slice_last. rewrite length_drop. lia. Qed.

Lemma slice_last_all {A} (n : nat) (l : list A) :
  (length l ≤ n)%nat → slice_last n l = l.
Proof.
  intros Hle. unfold slice_last.
  replace (length l - n)%nat with 0%nat by lia. reflexivity.
Qed.

Lemma slice_last_cons_full {A} (n : nat) (x : A) (l : list A) :
  length l = n → slice_last n (x :: l) = l.
Proof.
  intros Hlen. unfold slice_last. cbn [length].
  replace (S (length l) - n)%nat with 1%nat by lia. reflexivity.
Qed.

Lemma slice_last_subseteq {A} (n : nat) (l : list A) (x : A) :
  x ∈ slice_last n l → x ∈ l.
Proof. unfold slice_last. intros Hin. by eapply subseteq_drop. Qed.

Lemma array_from_set_elem (l : list string) (x : string) :
  x ∈ array_from_set l ↔ x ∈ l.
Proof.
  induction l as [|y l IH]; cbn [array_from_set]; [reflexivity|].
  rewrite !elem_of_cons, list_elem_of_filter, IH.
  destruct (decide (x = y)); tauto.
Qed.

Lemma array_from_set_NoDup (l : list string) : NoDup (array_from_set l).
Proof.
  induction l as [|y l IH]; cbn [array_from_set]; [constructor|].
  constructor.
  - rewrite list_elem_of_filter. intros [Hne _]. by apply Hne.
  - by apply NoDup_filter.
Qed.

(** ** The entry that [applyKnowledgeUpdate] writes *)

Lemma clamp_score_range (s : Z) : 0 ≤ KG.clamp_score s ≤ 100.
Proof. unfold KG.clamp_score. lia. Qed.

Section UpdateFacts.

Variables (kg : KnowledgeGraph) (update : KnowledgeUpdate).
Variables (errorType : ErrorType) (isCorrect : bool) (now : Z).

Local Abbreviation result :=
  (KG.applyKnowledgeUpdate kg update errorType isCorrect now).
Local Abbreviation existing :=
  (default KG.default_topic (topics kg !! ku_topic update)).
Local Abbreviation newScore :=
  (KG.clamp_score (confidenceScore existing + confidence_delta update)).

Lemma update_entry :
  ∃ ts, topics result !! ku_topic update = Some ts
        ∧ confidenceScore ts = newScore
        ∧ mastered ts
          = default ((85 <=? newScore) && isCorrect) (ku_mastered update)
        ∧ attempts ts = attempts existing + 1
        ∧ lastErrors ts
          = if bool_decide (errorType ≠ "None")
            then slice_last 4 (lastErrors existing) ++ [errorType]
            else lastErrors existing.
Proof.
  eexists. split; [apply lookup_insert_eq|]. cbn. auto.
Qed.

Lemma update_other_topic (t : string) :
  t ≠ ku_topic update → topics result !! t = topics kg !! t.
Proof. intros Hne. cbn. by rewrite lookup_insert_ne. Qed.

Lemma update_history :
  errorHistory result
  = if bool_decide (errorType ≠ "None")
    then slice_last 49 (errorHistory kg) ++ [new_record update errorType now]
    else errorHistory kg.
Proof. reflexivity. Qed.

Lemma update_history_length :
  (length (errorHistory kg) ≤ 50 → length (errorHistory result) ≤ 50)%nat.
Proof.
  intros Hle. rewrite update_history. case_bool_decide; [|done].
  rewrite length_app, slice_last_length. cbn. lia.
Qed.

Lemma update_history_no_None :
  Forall (λ r, er_type r ≠ "None") (errorHistory kg) →
  Forall (λ r, er_type r ≠ "None") (errorHistory result).
Proof.
  intros Hall. rewrite update_history. case_bool_decide; [|done].
  apply Forall_app. split.
  - unfold slice_last. by apply Forall_drop.
  - repeat constructor. done.
Qed.

End UpdateFacts.

Lemma reachable_history_invariant (g : KnowledgeGraph) :
  reachable g →
  (length (errorHistory g) ≤ 50)%nat
  ∧ Forall (λ r, er_type r ≠ "None") (errorHistory g).
Proof.
  induction 1 as [|kg u e c now _ [IHlen IHall]|kg _ IH|kg _ IH];
    [|split|exact IH|exact IH].
  - cbn. split; [lia|constructor].
  - by apply update_history_length.
  - by apply update_history_no_None.
Qed.

(** ** Confidence scores *)

Lemma update_score kg update errorType isCorrect now :
  confidenceScore
    <$> topics (KG.applyKnowledgeUpdate kg update errorType isCorrect now)
          !! ku_topic update
  = Some (KG.clamp_score
            (KG.getTopicConfidence kg (ku_topic update)
             + confidence_delta update)).
Proof.
  destruct (update_entry kg update errorType isCorrect now)
    as (ts & Hts & Hsc & _).
  rewrite Hts. cbn. f_equal. rewrite Hsc. unfold KG.getTopicConfidence.
  by destruct (topics kg !! ku_topic update).
Qed.



(** ** Mastery *)

Lemma mastered_flag_cases (explicit : option bool) (score : Z) (isCorrect : bool) :
  default ((85 <=? score) && isCorrect) explicit = true
  ↔ explicit = Some true ∨ (explicit = None ∧ 85 ≤ score ∧ isCorrect = true).
Proof.
  destruct explicit as [[|]|]; cbn.
  - split; [by left|done].
  - split; [done|]. intros [?|[? _]]; congruence.
  - rewrite andb_true_iff, Z.leb_le. split.
    + intros [? ?]. by right.
    + intros [?|(_ & ? & ?)]; [congruence|done].
Qed.

Lemma update_weak_nodes_mastered kg update errorType isCorrect now ts :
  topics (KG.applyKnowledgeUpdate kg update errorType isCorrect now)
    !! ku_topic update = Some ts →
  mastered ts = true →
  ku_topic update
    ∉ weakNodes (KG.applyKnowledgeUpdate kg update errorType isCorrect now).
Proof.
  cbn. rewrite lookup_insert_eq. intros [= <-]. cbn. intros ->.
  rewrite list_elem_of_filter. intros [Hne _]. by apply Hne.
Qed.



(** The mastery flag is recomputed by every update of the topic: a mastered
    topic that answers wrongly, in an update without an explicit flag, is no
    longer mastered. *)
Lemma sticky_mastery_counterexample :
  mastered <$> topics (Sample.graph_with true 90) !! "limits" = Some true
  ∧ mastered
      <$> topics (KG.applyKnowledgeUpdate (Sample.graph_with true 90)
                    (Sample.plain_update (-10)) "Sign Error" false 0) !! "limits"
    = Some false.
Proof. split; reflexivity. Qed.

(** C2 (as the code has it). For a topic [t] that is mastered in the graph:
    an update of another topic leaves its entry as it is; an update of [t]
    itself keeps it mastered exactly when the update carries
    [mastered = true], or carries no flag while the clamped new score is at
    least 85 and the answer is correct.  The previous flag plays no part. *)
Theorem mastery_after_update kg update errorType isCorrect now t ts :
  topics kg !! t = Some ts →
  mastered ts = true →
  (t ≠ ku_topic update →
   topics (KG.applyKnowledgeUpdate kg update errorType isCorrect now) !! t
   = Some ts)
  ∧ (t = ku_topic update →
     (mastered
        <$> topics (KG.applyKnowledgeUpdate kg update errorType isCorrect now)
              !! t
      = Some true
      ↔ ku_mastered update = Some true
        ∨ (ku_mastered update = None
           ∧ 85 ≤ KG.clamp_score (confidenceScore ts + confidence_delta update)
           ∧ isCorrect = true))).
Proof.
  intros Hts _. split.
  - intros Hne. by rewrite update_other_topic.
  - intros ->.
    destruct (update_entry kg update errorType isCorrect now)
      as (ts' & Hts' & _ & Hm & _).
    rewrite Hts'. cbn. rewrite Hts in Hm. cbn in Hm.
    rewrite <- mastered_flag_cases, <- Hm.
    split; [by intros [= ->]|by intros ->].
Qed.

Lemma mastery_after_update_witness :
  mastered
    <$> topics (KG.applyKnowledgeUpdate (Sample.graph_with true 90)
                  (Sample.plain_update 5) "None" true 0) !! "limits"
  = Some true.
Proof.
  apply (mastery_after_update (Sample.graph_with true 90) (Sample.plain_update 5)
           "None" true 0 "limits"
           {| mastered := true; confidenceScore := 90;
              attempts := 3; lastErrors := [] |});
    [reflexivity|reflexivity|reflexivity|].
  right. split; [reflexivity|]. split; [by vm_compute|reflexivity].
Defined.

(** ** The error history *)



(** ** Error frequencies and the drill trigger *)

Lemma freq_get_bump (k t : ErrorType) (freq : list (ErrorType * Z)) :
  freq_get k (KG.freq_bump t freq)
  = freq_get k freq + (if bool_decide (t = k) then 1 else 0).
Proof.
  induction freq as [|[k' c] rest IH]; cbn.
  - repeat case_bool_decide; lia.
  - repeat (case_bool_decide; cbn); subst; try congruence; try lia.
Qed.

Lemma freq_bump_keys (k t : ErrorType) (freq : list (ErrorType * Z)) :
  k ∈ (KG.freq_bump t freq).*1 ↔ k = t ∨ k ∈ freq.*1.
Proof.
  induction freq as [|[k' c] rest IH]; cbn.
  - rewrite list_elem_of_singleton, elem_of_nil. tauto.
  - case_bool_decide; cbn; rewrite !elem_of_cons.
    + subst k'. tauto.
    + rewrite IH. tauto.
Qed.

Lemma freq_bump_NoDup (t : ErrorType) (freq : list (ErrorType * Z)) :
  NoDup freq.*1 → NoDup (KG.freq_bump t freq).*1.
Proof.
  induction freq as [|[k' c] rest IH]; cbn; intros Hnd.
  - apply NoDup_singleton.
  - apply NoDup_cons in Hnd as [Hnotin Hnd].
    case_bool_decide; cbn; apply NoDup_cons.
    + done.
    + split; [|by apply IH]. rewrite freq_bump_keys. intros [->|?]; done.
Qed.

Lemma freq_get_elem (k : ErrorType) (c : Z) (freq : list (ErrorType * Z)) :
  NoDup freq.*1 → (k, c) ∈ freq → freq_get k freq = c.
Proof.
  induction freq as [|[k' c'] rest IH]; cbn; intros Hnd Hin.
  - by apply elem_of_nil in Hin.
  - apply NoDup_cons in Hnd as [Hnotin Hnd].
    apply elem_of_cons in Hin as [[= <- <-]|Hin].
    + by rewrite bool_decide_eq_true_2.
    + case_bool_decide as Heq; [|by apply IH].
      subst k'. exfalso. apply Hnotin.
      apply list_elem_of_fmap. by exists (k, c).
Qed.

Lemma freq_get_present (k : ErrorType) (freq : list (ErrorType * Z)) :
  freq_get k freq ≠ 0 → (k, freq_get k freq) ∈ freq.
Proof.
  induction freq as [|[k' c'] rest IH]; cbn; intros Hne; [done|].
  case_bool_decide as Heq.
  - subst k'. by left.
  - right. by apply IH.
Qed.

Lemma count_kind_cons (k : ErrorType) (r : ErrorRecord) (l : list ErrorRecord) :
  count_kind k (r :: l)
  = ((if bool_decide (er_type r = k) then 1 else 0) + count_kind k l)%nat.
Proof.
  unfold count_kind. rewrite filter_cons.
  case_decide; case_bool_decide; done.
Qed.

(** The table after the loop of [getErrorFrequency], started from [acc]. *)
Lemma freq_fold (l : list ErrorRecord) :
  ∀ acc : list (ErrorType * Z),
    NoDup acc.*1 →
    NoDup (foldl (λ freq r, KG.freq_bump (er_type r) freq) acc l).*1
    ∧ ∀ k, freq_get k (foldl (λ freq r, KG.freq_bump (er_type r) freq) acc l)
           = freq_get k acc + Z.of_nat (count_kind k l).
Proof.
  induction l as [|r l IH]; intros acc Hnd; cbn [foldl].
  - split; [done|]. intros k. unfold count_kind. cbn. lia.
  - destruct (IH (KG.freq_bump (er_type r) acc)) as [Hnd' Hget].
    { by apply freq_bump_NoDup. }
    split; [done|]. intros k.
    rewrite Hget, freq_get_bump, count_kind_cons. case_bool_decide; lia.
Qed.

Lemma getErrorFrequency_spec (kg : KnowledgeGraph) :
  NoDup (KG.getErrorFrequency kg).*1
  ∧ ∀ k, freq_get k (KG.getErrorFrequency kg)
         = Z.of_nat (count_kind k (slice_last 30 (errorHistory kg))).
Proof.
  destruct (freq_fold (slice_last 30 (errorHistory kg)) []) as [Hnd Hget].
  { constructor. }
  split; [exact Hnd|]. intros k. unfold KG.getErrorFrequency. by rewrite Hget.
Qed.

(** The trigger fires exactly when some kind, whichever it is, has three
    records or more among the last 30. *)
Lemma shouldTrigger_any_kind (kg : KnowledgeGraph) :
  KG.shouldTriggerMicroDrill kg = true
  ↔ ∃ k, (3 ≤ count_kind k (slice_last 30 (errorHistory kg)))%nat.
Proof.
  destruct (getErrorFrequency_spec kg) as [Hnd Hget].
  unfold KG.shouldTriggerMicroDrill. rewrite existsb_exists. split.
  - intros (c & Hin & Hc). apply Z.leb_le in Hc.
    apply list_elem_of_In, list_elem_of_fmap in Hin as ([k c'] & -> & Hin).
    exists k. apply (freq_get_elem _ _ _ Hnd) in Hin.
    rewrite Hget in Hin. cbn in Hc. lia.
  - intros (k & Hk).
    exists (freq_get k (KG.getErrorFrequency kg)). split.
    + apply list_elem_of_In, list_elem_of_fmap.
      exists (k, freq_get k (KG.getErrorFrequency kg)). split; [done|].
      apply freq_get_present. rewrite Hget. lia.
    + apply Z.leb_le. rewrite Hget. lia.
Qed.

Lemma count_kind_pos_elem (k : ErrorType) (l : list ErrorRecord) :
  (0 < count_kind k l)%nat → ∃ r, r ∈ l ∧ er_type r = k.
Proof.
  unfold count_kind. intros Hpos.
  destruct (filter (λ r, er_type r = k) l) as [|r rest] eqn:Hf;
    [cbn in Hpos; lia|].
  exists r.
  assert (Hin : r ∈ filter (λ r, er_type r = k) l) by (rewrite Hf; by left).
  apply list_elem_of_filter in Hin as [? ?]. done.
Qed.




(** ** The micro-drill flag *)




(** ** Failed turns *)

Lemma sendMessage_started env text outcome state :
  trim_is_empty text = false → Session.isLoading state = false →
  Turn.sendMessage env text outcome state
  = Session.reducer (Turn.reducer_env env)
      (Session.reducer (Turn.reducer_env env)
         (Session.reducer (Turn.reducer_env env)
            (Session.reducer (Turn.reducer_env env) state
               (Session.SEND_MESSAGE
                  {| msg_id := Turn.user_uuid env; msg_role := RUser;
                     msg_content := text; msg_errorType := None;
                     msg_timestamp := Turn.user_now env;
                     msg_isMicroDrill := None |}
                  (Session.conversationHistory state
                     ++ [ {| cm_role := RUser; cm_content := text |} ])))
            (Session.SET_LOADING true))
         (Session.SET_STREAMING true))
      (Turn.final_action outcome).
Proof.
  intros Htext Hload. unfold Turn.sendMessage. by rewrite Htext, Hload.
Qed.

Lemma route_failure_is_failed body oracle :
  Turn.oracle_fails oracle →
  Turn.failed (Turn.fetch_of_route (Route.POST body oracle)).
Proof.
  unfold Route.POST. intros Hfail.
  destruct (trim_is_empty (req_message body)); [done|].
  destruct oracle as [e|content]; [done|]. cbn in Hfail.
  destruct (List.find Route.is_tool_use content) as [[text|name input]|];
    try done.
  by rewrite bool_decide_eq_true_2.
Qed.




(** ** The curve sampler *)

Section PathFacts.
Import Graph PathSpec.

Variable fn : float → float.
Variables xMin xMax yMin yMax width height : float.
Variable steps : nat.

Local Abbreviation step :=
  (path_step fn xMin xMax yMin yMax width height steps).
Local Abbreviation drawn' := (drawn fn xMin xMax yMin yMax steps).
Local Abbreviation pen_up' := (pen_up_before fn xMin xMax yMin yMax steps).
Local Abbreviation command' :=
  (command_at fn xMin xMax yMin yMax width height steps).
Local Abbreviation move' := (move_at fn xMin xMax yMin yMax width height steps).
Local Abbreviation line' := (line_at fn xMin xMax yMin yMax width height steps).

(** The state of the loop after the samples [0 .. n-1]: the pen is down
    exactly when the last sample was drawn. *)
Lemma path_loop_invariant (n : nat) :
  foldl step (false, []) (seq 0 n)
  = (negb (pen_up' n), map command' (List.filter drawn' (seq 0 n))).
Proof.
  induction n as [|n IH]; [reflexivity|].
  rewrite seq_S, foldl_app, IH, List.filter_app, map_app.
  cbn [foldl Nat.add List.filter pen_up_before].
  assert (Hd : drawn' n
               = negb (pen_lifts yMin yMax (fn (sample_x xMin xMax steps n))))
    by reflexivity.
  rewrite Hd. unfold path_step.
  destruct (pen_lifts yMin yMax (fn (sample_x xMin xMax steps n)));
    cbn [negb map].
  - by rewrite app_nil_r.
  - assert (Hc : command' n = if pen_up' n then move' n else line' n)
      by reflexivity.
    rewrite Hc. by destruct (pen_up' n).
Qed.

Lemma generatePath_points_spec :
  generatePath_points fn xMin xMax yMin yMax width height steps
  = path_commands fn xMin xMax yMin yMax width height steps.
Proof.
  unfold generatePath_points, path_commands. by rewrite path_loop_invariant.
Qed.

Lemma filter_drawn_all (l : list nat) :
  (∀ i, i ∈ l → drawn' i = true) → List.filter drawn' l = l.
Proof.
  induction l as [|i l IH]; intros Hall; [reflexivity|]. cbn.
  rewrite (Hall i) by (by left). f_equal. apply IH.
  intros j Hj. apply Hall. by right.
Qed.

Lemma commands_are_lines (a len : nat) :
  (∀ i, (a ≤ i < a + S len)%nat → drawn' i = true) →
  map command' (seq (S a) len) = map line' (seq (S a) len).
Proof.
  intros Hall. apply map_ext_in. intros i Hin. apply in_seq in Hin.
  destruct i as [|j]; [lia|]. unfold command_at. cbn.
  rewrite Hall by lia. reflexivity.
Qed.

(** A single gap at an inner sample [k] splits the path in two. *)
Lemma single_gap_shape (k : nat) :
  (0 < k < steps)%nat →
  drawn' k = false →
  (∀ i, (i ≤ steps)%nat → i ≠ k → drawn' i = true) →
  generatePath_points fn xMin xMax yMin yMax width height steps
  = (move' 0%nat :: map line' (seq 1 (k - 1)))
      ++ (move' (S k) :: map line' (seq (S (S k)) (steps - k - 1))).
Proof.
  intros Hk Hgap Hall. rewrite generatePath_points_spec. unfold path_commands.
  replace (S steps) with (k + (1 + (steps - k)))%nat by lia.
  rewrite !seq_app, !List.filter_app. cbn [seq List.filter Nat.add].
  rewrite Hgap. cbn [app]. replace (k + 1)%nat with (S k) by lia.
  rewrite !filter_drawn_all.
  2:{ intros i Hin. apply list_elem_of_In, in_seq in Hin. apply Hall; lia. }
  2:{ intros i Hin. apply list_elem_of_In, in_seq in Hin. apply Hall; lia. }
  assert (H1 : map command' (seq 0 k) = move' 0%nat :: map line' (seq 1 (k - 1))).
  { destruct k as [|k']; [lia|]. cbn [seq map].
    replace (S k' - 1)%nat with k' by lia. f_equal.
    destruct k' as [|k'']; [reflexivity|].
    apply commands_are_lines. intros i Hi. apply Hall; lia. }
  assert (H2 : map command' (seq (S k) (steps - k))
               = move' (S k) :: map line' (seq (S (S k)) (steps - k - 1))).
  { replace (steps - k)%nat with (S (steps - k - 1)) by lia. cbn [seq map].
    f_equal.
    - unfold command_at. cbn. by rewrite Hgap.
    - destruct (steps - k - 1)%nat as [|m] eqn:Hm; [reflexivity|].
      apply commands_are_lines. intros i Hi. apply Hall; lia. }
  by rewrite map_app, H1, H2.
Qed.

Lemma segments_app (p q : list DrawCmd) :
  segments (p ++ q) = (segments p + segments q)%nat.
Proof. unfold segments. by rewrite List.filter_app, length_app. Qed.

Lemma segments_lines (l : list nat) : segments (map line' l) = 0%nat.
Proof. induction l as [|i l IH]; [reflexivity|exact IH]. Qed.

End PathFacts.

Lemma drawn_all_but (P : nat → bool) (n k : nat) :
  forallb (λ i, (i =? k)%nat || P i) (seq 0 (S n)) = true →
  ∀ i, (i ≤ n)%nat → i ≠ k → P i = true.
Proof.
  rewrite forallb_forall. intros Hall i Hi Hne.
  assert (Hi' : (i =? k)%nat || P i = true) by (apply Hall, in_seq; lia).
  apply orb_true_iff in Hi' as [Heq|HP]; [|exact HP].
  apply Nat.eqb_eq in Heq. done.
Qed.

(** C9. [generatePath] samples [xMin + (i/steps)(xMax - xMin)] for
    [i = 0..steps].  A sample whose value is not finite, or below [yMin - 1],
    or above [yMax + 1], gives no command and lifts the pen; any other sample
    gives one command at the affine image of the point, with [y] inverted: a
    move-to when the pen is up (at the first sample, or after a sample that
    lifted the pen), a line-to otherwise.  So a single undefined value at an
    inner sample, between drawn samples, splits the path into two subpaths. *)
Theorem generatePath_pen_lifting fn xMin xMax yMin yMax width height steps :
  let y i := fn (Graph.sample_x xMin xMax steps i) in
  let drawn := PathSpec.drawn fn xMin xMax yMin yMax steps in
  let path :=
    Graph.generatePath_points fn xMin xMax yMin yMax width height steps in
  path = PathSpec.path_commands fn xMin xMax yMin yMax width height steps
  ∧ (∀ toFixed2,
       Graph.generatePath fn xMin xMax yMin yMax width height steps toFixed2
       = String.concat " "
           (map (Graph.render toFixed2)
              (PathSpec.path_commands fn xMin xMax yMin yMax width height steps)))
  ∧ (∀ i,
       Graph.sample_x xMin xMax steps i
       = (xMin + (Graph.num_of_nat i / Graph.num_of_nat steps) * (xMax - xMin))%float
       ∧ (drawn i = false
          ↔ Graph.isFinite (y i) = false
            ∨ (y i <? yMin - 1)%float = true
            ∨ (yMax + 1 <? y i)%float = true)
       ∧ PathSpec.point_x xMin xMax width steps i
         = (((Graph.sample_x xMin xMax steps i - xMin) / (xMax - xMin))
            * width)%float
       ∧ PathSpec.point_y fn xMin xMax yMin yMax height steps i
         = (height - ((y i - yMin) / (yMax - yMin)) * height)%float)
  ∧ (∀ k,
       (0 < k < steps)%nat →
       drawn k = false →
       (∀ i, (i ≤ steps)%nat → i ≠ k → drawn i = true) →
       PathSpec.segments path = 2%nat
       ∧ path
         = (PathSpec.move_at fn xMin xMax yMin yMax width height steps 0
            :: map (PathSpec.line_at fn xMin xMax yMin yMax width height steps)
                 (seq 1 (k - 1)))
           ++ (PathSpec.move_at fn xMin xMax yMin yMax width height steps (S k)
               :: map (PathSpec.line_at fn xMin xMax yMin yMax width height steps)
                    (seq (S (S k)) (steps - k - 1)))).
Proof.
  intros y drawn path. split; [apply generatePath_points_spec|].
  split; [|split].
  - intros toFixed2. unfold Graph.generatePath.
    by rewrite generatePath_points_spec.
  - intros i. split; [reflexivity|]. split; [|split; reflexivity].
    unfold drawn, PathSpec.drawn, Graph.pen_lifts. fold (y i).
    rewrite negb_false_iff, !orb_true_iff, negb_true_iff. tauto.
  - intros k Hk Hgap Hall.
    assert (Hshape := single_gap_shape fn xMin xMax yMin yMax width height steps
                        k Hk Hgap Hall).
    split; [|exact Hshape]. unfold path. rewrite Hshape, segments_app.
    unfold PathSpec.segments at 1 2. cbn [List.filter PathSpec.is_move
      PathSpec.move_at length].
    fold (PathSpec.segments
            (map (PathSpec.line_at fn xMin xMax yMin yMax width height steps)
               (seq 1 (k - 1)))).
    fold (PathSpec.segments
            (map (PathSpec.line_at fn xMin xMax yMin yMax width height steps)
               (seq (S (S k)) (steps - k - 1)))).
    by rewrite !segments_lines.
Qed.

(** The expression [(x*x-4)/(x-2)] over [[0,4]]: sample 150 of 300 is
    [x = 2], where the evaluator gives [NaN]. *)
Lemma generatePath_pen_lifting_witness :
  Graph.createEvaluator Sample.removable_engine Sample.removable
    = Some (Graph.guarded Sample.removable_fn)
  ∧ Graph.sample_x 0 4 300 150 = 2%float
  ∧ PrimFloat.is_nan (Graph.guarded Sample.removable_fn 2) = true
  ∧ PathSpec.segments Sample.removable_path = 2%nat.
Proof.
  split; [reflexivity|]. split; [reflexivity|]. split; [reflexivity|].
  destruct (generatePath_pen_lifting (Graph.guarded Sample.removable_fn)
              0%float 4%float (-1)%float 7%float 480%float 320%float 300)
    as (_ & _ & _ & Hgap).
  destruct (Hgap 150%nat) as [Hsegments _].
  - lia.
  - vm_compute. reflexivity.
  - apply drawn_all_but. vm_compute. reflexivity.
  - exact Hsegments.
Defined.

(** ** The expression sandbox *)

Lemma createEvaluator_accepts new_Function expression fn v :
  Graph.sanitizer_accepts expression = true →
  new_Function expression = Some fn →
  fn 1%float = Some (Graph.JNumber v) →
  Graph.createEvaluator new_Function expression = Some (Graph.guarded fn).
Proof.
  intros Hsafe Hfn Hprobe. unfold Graph.createEvaluator.
  case_bool_decide as Hempty.
  - subst expression. discriminate Hsafe.
  - by rewrite Hsafe, Hfn, Hprobe.
Qed.

(** C1. The gate of [createEvaluator] works on characters, and the letters
    of its character class spell more than the names of the numeric
    library.  The expressions [fetch(x)*0] and [self.length] name things
    outside that library, and the sanitiser accepts both; whenever the
    engine compiles such an expression and the probe call returns a number,
    [createEvaluator] returns an evaluator, so the expression is not
    rejected at compile time.  (In the other direction the gate refuses
    [sqrt(x)], a name the evaluator binds.) *)
Theorem sanitizer_admits_foreign_names :
  (SandboxSpec.names "fetch(x)*0" = ["fetch"; "x"]
   ∧ SandboxSpec.allow_listed "fetch(x)*0" = false
   ∧ Graph.sanitizer_accepts "fetch(x)*0" = true)
  ∧ (SandboxSpec.names "self.length" = ["self"; "length"]
     ∧ SandboxSpec.allow_listed "self.length" = false
     ∧ Graph.sanitizer_accepts "self.length" = true)
  ∧ (∀ new_Function expression fn v,
       Graph.sanitizer_accepts expression = true →
       new_Function expression = Some fn →
       fn 1%float = Some (Graph.JNumber v) →
       Graph.createEvaluator new_Function expression = Some (Graph.guarded fn))
  ∧ (SandboxSpec.allow_listed "sqrt(x)" = true
     ∧ Graph.sanitizer_accepts "sqrt(x)" = false).
Proof.
  split; [repeat split|]. split; [repeat split|].
  split; [exact createEvaluator_accepts|]. repeat split.
Qed.

Lemma sanitizer_admits_foreign_names_witness :
  is_Some (Graph.createEvaluator Sample.browser_engine "fetch(x)*0")
  ∧ is_Some (Graph.createEvaluator Sample.browser_engine "self.length").
Proof.
  destruct sanitizer_admits_foreign_names as (_ & _ & Haccept & _).
  split.
  - erewrite (Haccept Sample.browser_engine "fetch(x)*0");
      [by eexists|reflexivity|reflexivity|reflexivity].
  - erewrite (Haccept Sample.browser_engine "self.length");
      [by eexists|reflexivity|reflexivity|reflexivity].
Defined.

(** ** The update on the heap *)

Section WpRules.
Import Heap.

Context {A B : Type}.

Lemma wp_ret (a : A) h Q : Q a h → wp (ret a) h Q.
Proof. intros HQ. by exists a, h. Qed.

Lemma wp_bind (m : HeapM A) (k : A → HeapM B) h Q :
  wp m h (λ a h', wp (k a) h' Q) → wp (bind m k) h Q.
Proof.
  intros (a & h' & Hm & b & h'' & Hk & HQ). exists b, h''.
  unfold bind. by rewrite Hm.
Qed.

End WpRules.

Section WpHeap.
Import Heap.

Lemma wp_alloc o h Q :
  (∀ l, h !! l = None → Q l (<[l := o]> h)) → wp (alloc o) h Q.
Proof.
  intros HQ. eexists _, _. split; [reflexivity|]. apply HQ.
  apply not_elem_of_dom, is_fresh.
Qed.

Lemma wp_store l o o' h Q :
  h !! l = Some o' → Q tt (<[l := o]> h) → wp (store l o) h Q.
Proof. intros Hl HQ. eexists _, _. unfold store. by rewrite Hl. Qed.

Lemma wp_load_graph l t w e s h Q :
  h !! l = Some (ObjGraph t w e s) → Q (t, w, e, s) h → wp (load_graph l) h Q.
Proof.
  intros Hl HQ. eexists _, _. unfold load_graph, bind, load. by rewrite Hl.
Qed.

Lemma wp_load_topics l m h Q :
  h !! l = Some (ObjTopics m) → Q m h → wp (load_topics l) h Q.
Proof.
  intros Hl HQ. eexists _, _. unfold load_topics, bind, load. by rewrite Hl.
Qed.

Lemma wp_load_topic l m c a le h Q :
  h !! l = Some (ObjTopic m c a le) → Q (m, c, a, le) h →
  wp (load_topic l) h Q.
Proof.
  intros Hl HQ. eexists _, _. unfold load_topic, bind, load. by rewrite Hl.
Qed.

Lemma wp_load_strings l xs h Q :
  h !! l = Some (ObjStrings xs) → Q xs h → wp (load_strings l) h Q.
Proof.
  intros Hl HQ. eexists _, _. unfold load_strings, bind, load. by rewrite Hl.
Qed.

Lemma wp_load_history l ls h Q :
  h !! l = Some (ObjHistory ls) → Q ls h → wp (load_history l) h Q.
Proof.
  intros Hl HQ. eexists _, _. unfold load_history, bind, load. by rewrite Hl.
Qed.

Lemma wp_load_stats l s h Q :
  h !! l = Some (ObjStats s) → Q s h → wp (load_stats l) h Q.
Proof.
  intros Hl HQ. eexists _, _. unfold load_stats, bind, load. by rewrite Hl.
Qed.

(** What a heap holds, a larger heap holds. *)
Lemma holds_topic_mono (h h' : heap) l ts :
  h ⊆ h' → holds_topic h l ts → holds_topic h' l ts.
Proof.
  intros Hsub (le & Hl & Hle). exists le. unfold holds_strings in *.
  split; by eapply lookup_weaken.
Qed.

Lemma holds_records_mono (h h' : heap) ls rs :
  h ⊆ h' → Forall2 (holds_record h) ls rs → Forall2 (holds_record h') ls rs.
Proof.
  intros Hsub HF. eapply Forall2_impl; [exact HF|].
  intros l r Hl. by eapply lookup_weaken.
Qed.

Lemma holds_topics_other (h h' : heap) (m0 : gmap string loc)
    (M0 : gmap string TopicState) :
  h ⊆ h' →
  (∀ k, option_Forall2 (holds_topic h) (m0 !! k) (M0 !! k)) →
  ∀ k, option_Forall2 (holds_topic h') (m0 !! k) (M0 !! k).
Proof.
  intros Hsub Hall k. destruct (Hall k); constructor.
  by eapply holds_topic_mono.
Qed.

Lemma holds_topics_insert (h' : heap) (m0 : gmap string loc)
    (M0 : gmap string TopicState) topic entry ts :
  holds_topic h' entry ts →
  (∀ k, option_Forall2 (holds_topic h') (m0 !! k) (M0 !! k)) →
  ∀ k, option_Forall2 (holds_topic h')
         (<[topic := entry]> m0 !! k) (<[topic := ts]> M0 !! k).
Proof.
  intros Hentry Hall k. destruct (decide (topic = k)) as [->|Hne].
  - rewrite !lookup_insert_eq. by constructor.
  - rewrite !lookup_insert_ne by done. apply Hall.
Qed.

Lemma holds_graph_mono (h h' : heap) l g :
  h ⊆ h' → holds_graph h l g → holds_graph h' l g.
Proof.
  intros Hsub (t & w & e & s & Hl & (m & Ht & Hm) & Hw & (ls & He & Hls) & Hs).
  exists t, w, e, s. unfold holds_strings in *.
  split; [by eapply lookup_weaken|]. split; [|split; [|split]].
  - exists m. split; [by eapply lookup_weaken|]. by eapply holds_topics_other.
  - by eapply lookup_weaken.
  - exists ls. split; [by eapply lookup_weaken|]. by eapply holds_records_mono.
  - by eapply lookup_weaken.
Qed.

End WpHeap.

Lemma slice_last_Forall2 {A B} (P : A → B → Prop) n l k :
  Forall2 P l k → Forall2 P (slice_last n l) (slice_last n k).
Proof.
  intros HF. unfold slice_last. rewrite (Forall2_length _ _ _ HF).
  by apply Forall2_drop.
Qed.

(** Symbolic execution of a heap computation. *)
Ltac fresh_facts H :=
  repeat (apply lookup_insert_None in H as [H ?]).

Ltac heap_lookup :=
  repeat (first [ rewrite lookup_insert_eq
                | rewrite lookup_insert_ne by congruence ]);
  try eassumption; try reflexivity.

Ltac heap_step :=
  lazymatch goal with
  | |- Heap.wp (Heap.bind _ _) _ _ => apply wp_bind
  | |- Heap.wp (Heap.ret _) _ _ => apply wp_ret
  | |- Heap.wp (Heap.alloc _) _ _ =>
      let l := fresh "l" in
      let Hl := fresh "Hl" in
      apply wp_alloc; intros l Hl; fresh_facts Hl
  | |- Heap.wp (Heap.load_graph _) _ _ => eapply wp_load_graph; [heap_lookup|]
  | |- Heap.wp (Heap.load_topics _) _ _ => eapply wp_load_topics; [heap_lookup|]
  | |- Heap.wp (Heap.load_topic _) _ _ => eapply wp_load_topic; [heap_lookup|]
  | |- Heap.wp (Heap.load_strings _) _ _ =>
      eapply wp_load_strings; [heap_lookup|]
  | |- Heap.wp (Heap.load_history _) _ _ =>
      eapply wp_load_history; [heap_lookup|]
  | |- Heap.wp (Heap.load_stats _) _ _ => eapply wp_load_stats; [heap_lookup|]
  | |- Heap.wp (Heap.store _ _) _ _ => eapply wp_store; [heap_lookup|]
  end.

Ltac heap_extends :=
  repeat (apply insert_subseteq_r; [assumption|]); reflexivity.

(** The heap version computes the value of the pure version, in new
    objects, and leaves every object of the heap it started from as it was. *)
Lemma heap_update_refines h kg g u e c now :
  Heap.holds_graph h kg g →
  Heap.wp (Heap.applyKnowledgeUpdate kg u e c now) h
    (λ next h',
       h ⊆ h' ∧ h !! next = None
       ∧ Heap.holds_graph h' next (KG.applyKnowledgeUpdate g u e c now)).
Proof.
  intros (t0 & w0 & e0 & s0 & Hkg & (m0 & Ht0 & Hm0) & Hw0
          & (rs0 & He0 & Hrs0) & Hs0).
  unfold Heap.holds_strings in Hw0.
  assert (Htopic := Hm0 (ku_topic u)).
  unfold Heap.applyKnowledgeUpdate, Heap.clone_graph, Heap.existing_topic.
  unfold KG.applyKnowledgeUpdate.
  destruct (bool_decide (e ≠ "None")) eqn:He;
    destruct (weak_nodes u) as [wn|];
    [destruct (0 <? length wn)%nat eqn:Hwn| |
     destruct (0 <? length wn)%nat eqn:Hwn|].
  all: inversion Htopic as [lt ts Hts Hmt HMt|Hmt HMt];
    [destruct Hts as (le & Hlt & Hle); unfold Heap.holds_strings in Hle|].
  all: cbn [default].
  all: destruct (default
                   ((85 <=? KG.clamp_score
                              (confidenceScore
                                 (default KG.default_topic
                                    (topics g !! ku_topic u))
                               + confidence_delta u)) && c)
                   (ku_mastered u)) eqn:Hmast.
  all: rewrite <- ?HMt in Hmast;
    cbn [default confidenceScore KG.default_topic] in Hmast;
    try change (id ts) with ts in Hmast.
  all: repeat heap_step; rewrite <- ?Hmt; repeat heap_step;
    rewrite ?Hmast; repeat heap_step.
  all: (split; [heap_extends|]; split; [assumption|]).
  all: eexists _, _, _, _; split; [heap_lookup|].
  all: cbn [topics weakNodes errorHistory sessionStats mastered confidenceScore
            attempts lastErrors KG.default_topic id].
  all: rewrite ?Hmast.
  all: split; [|split; [|split]].
  all: try (unfold Heap.holds_strings; heap_lookup; fail).
  all: try (heap_lookup; fail).
  all: try (eexists; split; [heap_lookup|];
            apply holds_topics_insert;
              [eexists; split; [heap_lookup|unfold Heap.holds_strings; heap_lookup]
              |apply holds_topics_other with h; [heap_extends|assumption]];
            fail).
  all: try (eexists; split; [heap_lookup|];
            apply Forall2_app;
              [apply slice_last_Forall2;
               eapply holds_records_mono; [|eassumption]; heap_extends
              |repeat constructor; unfold Heap.holds_record; heap_lookup];
            fail).
  all: try (eexists; split; [heap_lookup|];
            eapply holds_records_mono; [|eassumption]; heap_extends).
Qed.

Lemma heap80_holds :
  Heap.holds_graph Sample.heap80 1 (Sample.graph_with false 80).
Proof.
  exists 2%positive, 3%positive, 4%positive, 5%positive.
  split; [reflexivity|]. split; [|split; [reflexivity|split; [|reflexivity]]].
  - exists {[ "limits" := 6%positive ]}. split; [reflexivity|]. intros k. cbn.
    destruct (decide (k = "limits")) as [->|Hne].
    + rewrite !lookup_singleton_eq. constructor.
      exists 7%positive. split; reflexivity.
    + rewrite !lookup_singleton_ne by done. constructor.
  - exists []. split; [reflexivity|constructor].
Qed.


